(** * use-input-validation: the [useInputValidation] hook

    A shallow embedding of [src/index.ts]: the hook body, the four callbacks
    it returns, and the part of the host (React's [useState] queue and the
    test harness' [act]) that the callbacks talk to.  TypeScript's type
    parameters [V] and [E] are erased at run time, so the embedding works on
    run-time JavaScript values, functions included: the hook hands whatever
    it holds to React's setters, and React runs a function it is handed. *)

From Stdlib Require Import String List ZArith NArith Bool.
Import ListNotations.
Local Open Scope string_scope.

(** ** JavaScript values *)

(** A function value is a reference to a function object. *)
Definition FunRef : Type := N.

(** The values a cell can hold.  Numbers are the integers JavaScript
    represents exactly; they are only ever stored or tested by [!].  What a
    function returns when it is called is given by the table [funcall] that the
    host below takes as a parameter. *)
Inductive JsValue : Type :=
| JsUndefined
| JsNull
| JsBoolean (b : bool)
| JsNumber (n : Z)
| JsString (s : string)
| JsFunction (ref : FunRef).

(** [typeof v] *)
Definition typeof (v : JsValue) : string :=
  match v with
  | JsUndefined => "undefined"
  | JsNull => "object"
  | JsBoolean _ => "boolean"
  | JsNumber _ => "number"
  | JsString _ => "string"
  | JsFunction _ => "function"
  end.

(** [typeof v === "function"], the test React makes on what it is handed. *)
Definition callable (v : JsValue) : bool :=
  String.eqb (typeof v) "function".

(** The truthiness test behind [!v] and [if (v)]. *)
Definition ToBoolean (v : JsValue) : bool :=
  match v with
  | JsUndefined | JsNull => false
  | JsBoolean b => b
  | JsNumber n => negb (Z.eqb n 0)
  | JsString s => negb (String.eqb s "")
  | JsFunction _ => true
  end.

(** [a ?? b] *)
Definition nullish (a b : JsValue) : JsValue :=
  match a with
  | JsUndefined | JsNull => b
  | _ => a
  end.

Notation "a ?? b" := (nullish a b) (at level 45, right associativity).

Definition JsValue_eq_dec (a b : JsValue) : {a = b} + {a <> b}.
Proof.
  decide equality;
    [ apply Bool.bool_dec | apply Z.eq_dec | apply String.string_dec
    | apply N.eq_dec ].
Defined.

(** ** The host's state primitive *)

(** [SetStateAction<S> = S | ((prevState: S) => S)], as React's reducer
    reads an action: [Plain v] replaces the state by [v]; [Updater f]
    replaces it by [f] of the state it finds.  [passed] below is how a
    run-time value becomes one or the other. *)
Inductive SetStateAction : Type :=
| Plain (v : JsValue)
| Updater (f : JsValue -> JsValue).

(** The hook calls [useState] three times; each call owns one slot. *)
Inductive Slot : Type := ValueSlot | ErrorSlot | SavePointSlot.

(** Hook memory of one mounted cell: the content of its three slots. *)
Record Cell : Type := mkCell {
  cell_value : JsValue;
  cell_error : JsValue;
  cell_savePoint : JsValue
}.

(** What a piece of hook code can do to the outside: enqueue an update on a
    slot, call the user's validator, or have the host call a function value
    while rendering. *)
Inductive Event : Type :=
| Dispatch (slot : Slot) (action : SetStateAction)
| Called (arg : JsValue)
| Invoked (ref : FunRef) (arg : JsValue).

(** Code that may emit events: its result and the events, oldest first. *)
Definition Eff (A : Type) : Type := (A * list Event)%type.

Definition ret {A : Type} (a : A) : Eff A := (a, []).

Definition bind {A B : Type} (m : Eff A) (k : A -> Eff B) : Eff B :=
  let '(a, l1) := m in
  let '(b, l2) := k a in
  (b, (l1 ++ l2)%list).

Declare Scope eff_scope.
Delimit Scope eff_scope with eff.
Notation "x <- m ;; k" := (bind m (fun x => k))
  (at level 61, m at next level, right associativity) : eff_scope.
Notation "' p <- m ;; k" := (bind m (fun x => match x with p => k end))
  (at level 61, p pattern, m at next level, right associativity) : eff_scope.
Notation "m ;; k" := (bind m (fun _ => k))
  (at level 61, right associativity) : eff_scope.
Local Open Scope eff_scope.

Definition result {A : Type} (m : Eff A) : A := fst m.
Definition events {A : Type} (m : Eff A) : list Event := snd m.

Definition dispatch (slot : Slot) (action : SetStateAction) : Eff unit :=
  (tt, [Dispatch slot action]).

(** [useCallback(callback, deps)].  Each callback of the hook lists every
    variable it captures among its dependencies, so the memoised closure
    and the fresh one are the same function. *)
Definition useCallback {A D : Type} (callback : A) (deps : D) : Eff A :=
  ret callback.

(** Applying one queued action to the state of its slot. *)
Definition apply_action (action : SetStateAction) (prev : JsValue) : JsValue :=
  match action with
  | Plain v => v
  | Updater f => f prev
  end.

Definition apply_event (c : Cell) (e : Event) : Cell :=
  match e with
  | Dispatch ValueSlot a =>
      mkCell (apply_action a (cell_value c)) (cell_error c) (cell_savePoint c)
  | Dispatch ErrorSlot a =>
      mkCell (cell_value c) (apply_action a (cell_error c)) (cell_savePoint c)
  | Dispatch SavePointSlot a =>
      mkCell (cell_value c) (cell_error c) (apply_action a (cell_savePoint c))
  | Called _ => c
  | Invoked _ _ => c
  end.

(** The host applies a batch of queued updates in the order they were made. *)
Definition flush (c : Cell) (queue : list Event) : Cell :=
  fold_left apply_event queue c.

(** The validator calls recorded in a trace. *)
Fixpoint validator_calls (l : list Event) : list JsValue :=
  match l with
  | [] => []
  | Called arg :: rest => arg :: validator_calls rest
  | Dispatch _ _ :: rest => validator_calls rest
  | Invoked _ _ :: rest => validator_calls rest
  end.

(** ** The hook *)

(** [interface InputValidation<V, E>] *)
Record InputValidation : Type := {
  value : JsValue;
  error : JsValue;
  setValue : SetStateAction -> Eff unit;
  validate : unit -> Eff bool;
  reset : unit -> Eff unit;
  commit : JsValue -> Eff unit
}.

Section Hook.

(** What each function value returns for its first argument, [undefined]
    when it is called without one.  Function values are taken to be pure,
    as React asks of initialisers and updaters. *)
Variable funcall : FunRef -> JsValue -> JsValue.

(** The host calling a function value while it renders. *)
Definition invoked (ref : FunRef) (arg : JsValue) : Eff JsValue :=
  (funcall ref arg, [Invoked ref arg]).

(** A run-time value handed to a state setter.  React's reducer is
    [typeof action === "function" ? action(state) : action]: a function is
    run as an updater, anything else replaces the state. *)
Definition passed (arg : JsValue) : SetStateAction :=
  match arg with
  | JsFunction ref => Updater (funcall ref)
  | _ => Plain arg
  end.

(** [useState(initialState)]: the stored state when the slot exists; on
    mount the initial state, which React calls (without arguments) when it
    is a function; together with the slot's setter.  The setter only
    enqueues; the host applies the queue later ([flush]). *)
Definition useState (stored : option JsValue) (slot : Slot)
    (initialState : JsValue) : Eff (JsValue * (SetStateAction -> Eff unit)) :=
  state <- match stored with
           | Some s => ret s
           | None =>
               match initialState with
               | JsFunction ref => invoked ref JsUndefined
               | _ => ret initialState
               end
           end ;;
  ret (state, dispatch slot).

Variables (initialValue staticHint : JsValue).
Variable validator : JsValue -> JsValue.

(** Calling the user's validator, leaving a mark in the trace. *)
Definition call_validator (arg : JsValue) : Eff JsValue :=
  (validator arg, [Called arg]).

(** One run of the hook body over the cell's memory ([None] on mount).
    Returns the memory after the run and the object handed to the
    component.  The callbacks hand [savePoint], [state ?? value], [result],
    [staticHint] and [null] to the setters as they are. *)
Definition useInputValidation (mem : option Cell)
    : Eff (Cell * InputValidation) :=
  '(value, setValue) <-
     useState (option_map cell_value mem) ValueSlot initialValue ;;
  '(error, setError) <-
     useState (option_map cell_error mem) ErrorSlot JsNull ;;
  '(savePoint, setSavePoint) <-
     useState (option_map cell_savePoint mem) SavePointSlot initialValue ;;

  reset <- useCallback (fun _ : unit =>
    setValue (passed savePoint) ;;
    setError (passed JsNull)) savePoint ;;

  commit <- useCallback (fun state : JsValue =>
    setSavePoint (passed (state ?? value))) value ;;

  validate <- useCallback (fun _ : unit =>
    result <- call_validator value ;;
    if negb (String.eqb (typeof result) "boolean") then
      setError (passed result) ;;
      ret false
    else if negb (ToBoolean result) then
      setError (passed staticHint) ;;
      ret false
    else
      setError (passed JsNull) ;;
      ret true) (validator, staticHint, value) ;;

  ret (mkCell value error savePoint,
       Build_InputValidation value error setValue validate reset commit).

(** ** The host around the hook *)

(** First render. *)
Definition mount : Eff (Cell * InputValidation) := useInputValidation None.

(** A later render: the object the component sees for memory [c]. *)
Definition render (c : Cell) : InputValidation :=
  snd (result (useInputValidation (Some c))).

(** What a component can call on the returned object.  The argument of
    setValue is the action React makes of it: [Updater u] for a function
    [u], [Plain v] for a value that is not one.  An omitted argument of
    [commit] is [None]. *)
Inductive Call : Type :=
| CallSetValue (update : SetStateAction)
| CallValidate
| CallReset
| CallCommit (state : option JsValue).

(** A call and the value it returns.  A parameter that received no
    argument is bound to [undefined]; a function without a [return]
    yields [undefined]. *)
Definition invoke (r : InputValidation) (call : Call) : Eff JsValue :=
  match call with
  | CallSetValue update => setValue r update ;; ret JsUndefined
  | CallValidate => b <- validate r tt ;; ret (JsBoolean b)
  | CallReset => reset r tt ;; ret JsUndefined
  | CallCommit None => commit r JsUndefined ;; ret JsUndefined
  | CallCommit (Some state) => commit r state ;; ret JsUndefined
  end.

(** The calls made inside one [act(() => { ... })]: all of them go to the
    object of the same render. *)
Fixpoint batch (r : InputValidation) (calls : list Call)
    : Eff (list JsValue) :=
  match calls with
  | [] => ret []
  | call :: rest =>
      v <- invoke r call ;;
      vs <- batch r rest ;;
      ret (v :: vs)
  end.

(** [act]: run the calls against the current render, then let the host
    apply the queued updates. *)
Definition act (c : Cell) (calls : list Call) : Cell * list JsValue :=
  let m := batch (render c) calls in
  (flush c (events m), result m).

Definition trace (c : Cell) (calls : list Call) : list Event :=
  events (batch (render c) calls).

Definition after (c : Cell) (calls : list Call) : Cell := fst (act c calls).

Definition returned (c : Cell) (calls : list Call) : list JsValue :=
  snd (act c calls).

(** A script is a sequence of [act] blocks, each followed by a re-render. *)
Definition run (c : Cell) (script : list (list Call)) : Cell :=
  fold_left after script c.

End Hook.

(** ** Fixtures of the test suite *)

(** [() => false], [() => true], [() => "Dynamic"], [() => null] *)
Definition always_false (_ : JsValue) : JsValue := JsBoolean false.
Definition always_true (_ : JsValue) : JsValue := JsBoolean true.
Definition always_dynamic (_ : JsValue) : JsValue := JsString "Dynamic".
Definition always_null (_ : JsValue) : JsValue := JsNull.

(** [prev => typeof prev === "string" ? prev + "X" : prev]; on a string it
    is [prev => prev + "X"]. *)
Definition append_X (prev : JsValue) : JsValue :=
  match prev with
  | JsString s => JsString (s ++ "X")
  | _ => prev
  end.

(** Three function objects: [lazy] is [() => "lazy"], [appender] is
    [append_X], and [maker] is [() => appender]. *)
Definition lazy : FunRef := 0%N.
Definition appender : FunRef := 1%N.
Definition maker : FunRef := 2%N.

Definition fixture_funcall (ref : FunRef) (arg : JsValue) : JsValue :=
  if N.eqb ref lazy then JsString "lazy"
  else if N.eqb ref appender then append_X arg
  else if N.eqb ref maker then JsFunction appender
  else JsUndefined.

(** [() => lazy]: a validator whose dynamic hint is a function. *)
Definition always_lazy (_ : JsValue) : JsValue := JsFunction lazy.

(** The cell of [useInputValidation("Init", "Error hint", ...)] once
    mounted. *)
Definition init_cell : Cell := mkCell (JsString "Init") JsNull (JsString "Init").

(** A cell whose three slots all differ. *)
Definition busy_cell : Cell :=
  mkCell (JsString "Changed") (JsString "Error hint") (JsString "Init").

(** [busy_cell] after [commit(maker)]: the save point holds a function. *)
Definition function_savePoint_cell : Cell :=
  mkCell (JsString "Changed") (JsString "Error hint") (JsFunction appender).

(** [init_cell] after [setValue(maker)]: the value holds a function. *)
Definition function_value_cell : Cell :=
  mkCell (JsFunction appender) JsNull (JsString "Init").

(** ** Classifying calls *)

Definition is_validate (call : Call) : bool :=
  match call with CallValidate => true | _ => false end.

Definition is_commit (call : Call) : bool :=
  match call with CallCommit _ => true | _ => false end.

Definition commit_free (script : list (list Call)) : bool :=
  forallb (forallb (fun call => negb (is_commit call))) script.

(** ** The releases before [commit]

    [src/index.js] and the first [index.ts] keep two slots, reset to the
    [initialValue] argument and return
    [{ value, error, setValue, validate, reset }]. *)

Module Early.

(** Hook memory: the two [useState] slots. *)
Record Cell : Type := mkCell {
  cell_value : JsValue;
  cell_error : JsValue
}.

(** [interface InputValidation<V, E>] of these releases. *)
Record InputValidation : Type := {
  value : JsValue;
  error : JsValue;
  setValue : SetStateAction -> Eff unit;
  validate : unit -> Eff bool;
  reset : unit -> Eff unit
}.

(** These hooks own no save-point slot and never dispatch to one. *)
Definition apply_event (c : Cell) (e : Event) : Cell :=
  match e with
  | Dispatch ValueSlot a => mkCell (apply_action a (cell_value c)) (cell_error c)
  | Dispatch ErrorSlot a => mkCell (cell_value c) (apply_action a (cell_error c))
  | Dispatch SavePointSlot _ => c
  | Called _ => c
  | Invoked _ _ => c
  end.

Definition flush (c : Cell) (queue : list Event) : Cell :=
  fold_left apply_event queue c.

Inductive Call : Type :=
| CallSetValue (update : SetStateAction)
| CallValidate
| CallReset.

Definition invoke (r : InputValidation) (call : Call) : Eff JsValue :=
  match call with
  | CallSetValue update => setValue r update ;; ret JsUndefined
  | CallValidate => b <- validate r tt ;; ret (JsBoolean b)
  | CallReset => reset r tt ;; ret JsUndefined
  end.

Fixpoint batch (r : InputValidation) (calls : list Call)
    : Eff (list JsValue) :=
  match calls with
  | [] => ret []
  | call :: rest =>
      v <- invoke r call ;;
      vs <- batch r rest ;;
      ret (v :: vs)
  end.

Section Host.

(** The hook with its arguments of the current render. *)
Variable hook : option Cell -> Eff (Cell * InputValidation).

Definition render (c : Cell) : InputValidation :=
  snd (result (hook (Some c))).

Definition act (c : Cell) (calls : list Call) : Cell * list JsValue :=
  let m := batch (render c) calls in
  (flush c (events m), result m).

Definition trace (c : Cell) (calls : list Call) : list Event :=
  events (batch (render c) calls).

Definition after (c : Cell) (calls : list Call) : Cell := fst (act c calls).

Definition returned (c : Cell) (calls : list Call) : list JsValue :=
  snd (act c calls).

Definition run (c : Cell) (script : list (list Call)) : Cell :=
  fold_left after script c.

End Host.

End Early.

(** [src/index.js]: the validator is a predicate, tested with [!]. *)
Module Legacy.

Section Hook.

Variable funcall : FunRef -> JsValue -> JsValue.
Variables (initialValue hint : JsValue).
Variable validator : JsValue -> JsValue.

Definition useInputValidation (mem : option Early.Cell)
    : Eff (Early.Cell * Early.InputValidation) :=
  '(value, setValue) <-
     useState funcall (option_map Early.cell_value mem) ValueSlot
       initialValue ;;
  '(error, setError) <-
     useState funcall (option_map Early.cell_error mem) ErrorSlot JsNull ;;

  reset <- useCallback (fun _ : unit =>
    setValue (passed funcall initialValue) ;;
    setError (passed funcall JsNull)) initialValue ;;

  validate <- useCallback (fun _ : unit =>
    result <- call_validator validator value ;;
    if negb (ToBoolean result) then
      setError (passed funcall hint) ;;
      ret false
    else
      setError (passed funcall JsNull) ;;
      ret true) (validator, hint, value) ;;

  ret (Early.mkCell value error,
       Early.Build_InputValidation value error setValue validate reset).

End Hook.

End Legacy.

(** The [index.ts] that introduced dynamic hints, before save points. *)
Module Interim.

Section Hook.

Variable funcall : FunRef -> JsValue -> JsValue.
Variables (initialValue staticHint : JsValue).
Variable validator : JsValue -> JsValue.

Definition useInputValidation (mem : option Early.Cell)
    : Eff (Early.Cell * Early.InputValidation) :=
  '(value, setValue) <-
     useState funcall (option_map Early.cell_value mem) ValueSlot
       initialValue ;;
  '(error, setError) <-
     useState funcall (option_map Early.cell_error mem) ErrorSlot JsNull ;;

  reset <- useCallback (fun _ : unit =>
    setValue (passed funcall initialValue) ;;
    setError (passed funcall JsNull)) initialValue ;;

  validate <- useCallback (fun _ : unit =>
    result <- call_validator validator value ;;
    if negb (String.eqb (typeof result) "boolean") then
      setError (passed funcall result) ;;
      ret false
    else if negb (ToBoolean result) then
      setError (passed funcall staticHint) ;;
      ret false
    else
      setError (passed funcall JsNull) ;;
      ret true) (validator, staticHint, value) ;;

  ret (Early.mkCell value error,
       Early.Build_InputValidation value error setValue validate reset).

End Hook.

End Interim.

(** ** From an early release to the current one *)

(** The same call on the current interface. *)
Definition upgrade (call : Early.Call) : Call :=
  match call with
  | Early.CallSetValue update => CallSetValue update
  | Early.CallValidate => CallValidate
  | Early.CallReset => CallReset
  end.

(** What an early component can see of a current cell. *)
Definition forget (c : Cell) : Early.Cell :=
  Early.mkCell (cell_value c) (cell_error c).

(** ** The event algebra *)

Lemma events_bind {A B : Type} (m : Eff A) (k : A -> Eff B) :
  events (bind m k) = (events m ++ events (k (result m)))%list.
Proof.
  destruct m as [a l1]. unfold bind, events, result. simpl.
  destruct (k a) as [b l2]. reflexivity.
Qed.

Lemma result_bind {A B : Type} (m : Eff A) (k : A -> Eff B) :
  result (bind m k) = result (k (result m)).
Proof.
  destruct m as [a l1]. unfold bind, result. simpl.
  destruct (k a) as [b l2]. reflexivity.
Qed.

Lemma flush_app (c : Cell) (q1 q2 : list Event) :
  flush c (q1 ++ q2) = flush (flush c q1) q2.
Proof. unfold flush. apply fold_left_app. Qed.

Lemma validator_calls_app (l1 l2 : list Event) :
  validator_calls (l1 ++ l2) = (validator_calls l1 ++ validator_calls l2)%list.
Proof.
  induction l1 as [|e l1 IH]; simpl; [reflexivity|].
  destruct e; simpl; rewrite IH; reflexivity.
Qed.

Lemma passed_plain (funcall : FunRef -> JsValue -> JsValue) (v : JsValue) :
  callable v = false -> passed funcall v = Plain v.
Proof. destruct v; intros H; (reflexivity || discriminate H). Qed.

(** * Properties of a cell *)

Section Cell.

Variable funcall : FunRef -> JsValue -> JsValue.
Variables (initialValue staticHint : JsValue).
Variable validator : JsValue -> JsValue.

Local Abbreviation render := (render funcall initialValue staticHint validator).
Local Abbreviation after := (after funcall initialValue staticHint validator).
Local Abbreviation trace := (trace funcall initialValue staticHint validator).
Local Abbreviation returned :=
  (returned funcall initialValue staticHint validator).
Local Abbreviation run := (run funcall initialValue staticHint validator).
Local Abbreviation mount := (mount funcall initialValue staticHint validator).

(** ** What each call enqueues *)

Lemma render_value (c : Cell) : value (render c) = cell_value c.
Proof. reflexivity. Qed.

Lemma render_error (c : Cell) : error (render c) = cell_error c.
Proof. reflexivity. Qed.

Lemma invoke_setValue (c : Cell) (update : SetStateAction) :
  invoke (render c) (CallSetValue update)
  = (JsUndefined, [Dispatch ValueSlot update]).
Proof. reflexivity. Qed.

Lemma invoke_reset (c : Cell) :
  invoke (render c) CallReset
  = (JsUndefined, [Dispatch ValueSlot (passed funcall (cell_savePoint c));
                   Dispatch ErrorSlot (Plain JsNull)]).
Proof. reflexivity. Qed.

Lemma invoke_commit (c : Cell) (state : option JsValue) :
  invoke (render c) (CallCommit state)
  = (JsUndefined,
     [Dispatch SavePointSlot
        (passed funcall (match state with
                         | Some s => s
                         | None => JsUndefined
                         end ?? cell_value c))]).
Proof. destruct state; reflexivity. Qed.

Lemma invoke_validate (c : Cell) :
  exists (b : bool) (a : SetStateAction),
    invoke (render c) CallValidate
    = (JsBoolean b, [Called (cell_value c); Dispatch ErrorSlot a]).
Proof.
  cbn.
  destruct (negb (String.eqb (typeof (validator (cell_value c))) "boolean"));
    [do 2 eexists; reflexivity|].
  destruct (negb (ToBoolean (validator (cell_value c))));
    do 2 eexists; reflexivity.
Qed.

Lemma trace_cons (c : Cell) (call : Call) (rest : list Call) :
  trace c (call :: rest)
  = (events (invoke (render c) call) ++ trace c rest)%list.
Proof.
  unfold trace. simpl batch.
  rewrite events_bind, events_bind. simpl. rewrite app_nil_r. reflexivity.
Qed.

Lemma after_flush (c : Cell) (calls : list Call) :
  after c calls = flush c (trace c calls).
Proof. reflexivity. Qed.

(** ** Construction *)

(** C4, amended: for every initial value that is not a function, every
    static hint and every validator, the freshly mounted cell has
    value = initialValue, error = null and savePoint = initialValue; the
    object handed to the component shows that value and that error; and
    mounting enqueues no update, makes no call to the validator and calls
    nothing else.  A function initial value is called by the host, once for
    each of the two slots, and what it returns is stored. *)
Theorem mount_initial_state :
  (callable initialValue = false ->
     fst (result mount) = mkCell initialValue JsNull initialValue
     /\ value (snd (result mount)) = initialValue
     /\ error (snd (result mount)) = JsNull
     /\ events mount = [])
  /\ (forall ref, initialValue = JsFunction ref ->
        fst (result mount)
        = mkCell (funcall ref JsUndefined) JsNull (funcall ref JsUndefined)
        /\ events mount = [Invoked ref JsUndefined; Invoked ref JsUndefined]).
Proof.
  split.
  - intros Hplain. destruct initialValue; try discriminate Hplain;
      repeat split.
  - intros ref Href. rewrite Href. split; reflexivity.
Qed.

(** ** validate *)

(** C1, amended: from every cell state, with r = validator(value): when r
    is [true], validate stores null as the error and returns true; when r
    is [false], it returns false and stores the static hint, provided the
    static hint is not a function; when r is not a boolean, it returns false
    and stores r itself, provided r is not a function.  A function handed to
    the error setter is run by the host on the error it finds, and what it
    returns is stored.  Value and save point are the same before and
    after. *)
Theorem validate_sets_error (c : Cell) :
  let r := validator (cell_value c) in
  let c' := after c [CallValidate] in
  (r = JsBoolean true ->
     cell_error c' = JsNull /\ returned c [CallValidate] = [JsBoolean true])
  /\ (r = JsBoolean false ->
     returned c [CallValidate] = [JsBoolean false]
     /\ (callable staticHint = false -> cell_error c' = staticHint)
     /\ (forall ref, staticHint = JsFunction ref ->
           cell_error c' = funcall ref (cell_error c)))
  /\ ((forall b, r <> JsBoolean b) ->
     returned c [CallValidate] = [JsBoolean false]
     /\ (callable r = false -> cell_error c' = r)
     /\ (forall ref, r = JsFunction ref ->
           cell_error c' = funcall ref (cell_error c)))
  /\ cell_value c' = cell_value c
  /\ cell_savePoint c' = cell_savePoint c.
Proof.
  cbv zeta.
  unfold after, returned, act, flush, events, result. cbn.
  destruct (validator (cell_value c)) as [ | | [|] | n | s | f] eqn:Hr; cbn;
    (split; [|split; [|split; [|split; reflexivity]]]);
    intros Hcase; try discriminate Hcase;
    try (exfalso; eapply Hcase; reflexivity);
    try (split; reflexivity);
    (split; [reflexivity|]);
    (split; [intros Hplain | intros ref Href]);
    try discriminate Hplain; try discriminate Href; try reflexivity.
  - rewrite (passed_plain funcall staticHint Hplain). reflexivity.
  - rewrite Href. reflexivity.
  - inversion Href. reflexivity.
Qed.

(** C10: when the validator returns null, validate returns false and
    stores null as the error, so the next render shows error = null (the
    valid mode) although the call reported the value as invalid. *)
Theorem validate_null_hint_leaves_valid (c : Cell) :
  validator (cell_value c) = JsNull ->
  returned c [CallValidate] = [JsBoolean false]
  /\ cell_error (after c [CallValidate]) = JsNull
  /\ error (render (after c [CallValidate])) = JsNull.
Proof.
  intros Hnull.
  unfold after, returned, act, flush, events, result. cbn.
  rewrite Hnull. cbn. repeat split.
Qed.

(** ** reset *)

(** C2, amended: from every cell state whose save point is not a function,
    reset stores the save point as the value and null as the error.  From
    every cell state it stores null as the error, leaves the save point as
    it is and does not call the validator; a function save point is run by
    the host on the value it finds, and what it returns becomes the
    value. *)
Theorem reset_restores_savePoint (c : Cell) :
  (callable (cell_savePoint c) = false ->
     after c [CallReset] = mkCell (cell_savePoint c) JsNull (cell_savePoint c))
  /\ (forall ref, cell_savePoint c = JsFunction ref ->
        after c [CallReset]
        = mkCell (funcall ref (cell_value c)) JsNull (cell_savePoint c))
  /\ cell_error (after c [CallReset]) = JsNull
  /\ cell_savePoint (after c [CallReset]) = cell_savePoint c
  /\ validator_calls (trace c [CallReset]) = [].
Proof.
  split; [|split; [|repeat split]].
  - intros Hplain. unfold after, act, flush, events. cbn.
    rewrite (passed_plain funcall _ Hplain). reflexivity.
  - intros ref Href. unfold after, act, flush, events. cbn.
    rewrite Href. reflexivity.
Qed.

(** C8, amended: for every cell state whose save point is not a function,
    reset is idempotent: a second reset, whether in a later [act] or in
    the same one, leaves the cell as the first reset left it. *)
Theorem reset_idempotent (c : Cell) :
  callable (cell_savePoint c) = false ->
  after (after c [CallReset]) [CallReset] = after c [CallReset]
  /\ after c [CallReset; CallReset] = after c [CallReset].
Proof.
  intros Hplain. unfold after, act, flush, events. cbn.
  rewrite (passed_plain funcall _ Hplain). split; reflexivity.
Qed.

(** ** setValue *)

(** C5: from every cell state and for every update argument, setValue
    enqueues one update of the value slot and nothing else: error and save
    point are unchanged and the validator is not called. *)
Theorem setValue_frame (c : Cell) (update : SetStateAction) :
  cell_error (after c [CallSetValue update]) = cell_error c
  /\ cell_savePoint (after c [CallSetValue update]) = cell_savePoint c
  /\ trace c [CallSetValue update] = [Dispatch ValueSlot update]
  /\ validator_calls (trace c [CallSetValue update]) = [].
Proof. repeat split. Qed.

(** C6: setValue(u) with a function u replaces the value by u applied to
    the value the slot holds when the update is applied: to the current
    value when the call is alone, to the outcome of the updates queued
    before it otherwise (two updaters in one [act] compose).  A plain
    argument replaces the value directly.  From "Initial", the updater
    prev => prev + "X" gives "InitialX". *)
Theorem setValue_updater_applies_to_current
    (c : Cell) (u u' : JsValue -> JsValue) (v : JsValue)
    (pending : list Event) :
  cell_value (after c [CallSetValue (Updater u)]) = u (cell_value c)
  /\ cell_value (after c [CallSetValue (Plain v)]) = v
  /\ cell_value (flush c (pending ++ trace c [CallSetValue (Updater u)]))
     = u (cell_value (flush c pending))
  /\ cell_value (after c [CallSetValue (Updater u); CallSetValue (Updater u')])
     = u' (u (cell_value c))
  /\ cell_value
       (after (mkCell (JsString "Initial") (cell_error c) (cell_savePoint c))
          [CallSetValue (Updater append_X)])
     = JsString "InitialX".
Proof.
  repeat split.
  rewrite flush_app. reflexivity.
Qed.

(** ** commit *)

(** C9, amended: commit(null) hands the current value to the save point's
    setter, because the callback writes [state ?? value]: the save point
    becomes the current value, not null, when that value is not a function
    (a function value is run by the host on the save point it finds);
    commit(undefined) and commit(null) both leave the cell exactly as
    commit() does. *)
Theorem commit_nullish_uses_value (c : Cell) :
  (callable (cell_value c) = false ->
     cell_savePoint (after c [CallCommit (Some JsNull)]) = cell_value c)
  /\ (forall ref, cell_value c = JsFunction ref ->
        cell_savePoint (after c [CallCommit (Some JsNull)])
        = funcall ref (cell_savePoint c))
  /\ after c [CallCommit (Some JsUndefined)] = after c [CallCommit None]
  /\ after c [CallCommit (Some JsNull)] = after c [CallCommit None].
Proof.
  split; [|split; [|split; reflexivity]].
  - intros Hplain. unfold after, act, flush, events. cbn.
    rewrite (passed_plain funcall _ Hplain). reflexivity.
  - intros ref Href. unfold after, act, flush, events. cbn.
    rewrite Href. reflexivity.
Qed.

(** C3, amended: from every cell state, commit(state) with a state that is
    neither undefined nor null nor a function stores that state as the save
    point, and commit() stores the current value when that value is not a
    function; whatever the argument, value and error are unchanged; and a
    reset called once the commit has been applied, in a later [act], brings
    the value to the committed save point (when that is not a function). *)
Theorem commit_rebaselines (c : Cell) (state : JsValue) (arg : option JsValue) :
  (state <> JsNull -> state <> JsUndefined -> callable state = false ->
     cell_savePoint (after c [CallCommit (Some state)]) = state
     /\ cell_value (run c [[CallCommit (Some state)]; [CallReset]]) = state)
  /\ (callable (cell_value c) = false ->
     cell_savePoint (after c [CallCommit None]) = cell_value c
     /\ cell_value (run c [[CallCommit None]; [CallReset]]) = cell_value c)
  /\ cell_value (after c [CallCommit arg]) = cell_value c
  /\ cell_error (after c [CallCommit arg]) = cell_error c
  /\ (callable (cell_savePoint (after c [CallCommit arg])) = false ->
     cell_value (run c [[CallCommit arg]; [CallReset]])
     = cell_savePoint (after c [CallCommit arg])).
Proof.
  split; [|split; [|split; [|split]]].
  - intros Hnull Hundef Hplain.
    destruct state; try contradiction; try discriminate Hplain;
      split; reflexivity.
  - intros Hplain. unfold run, after, act, flush, events. cbn.
    rewrite (passed_plain funcall _ Hplain). cbn.
    rewrite (passed_plain funcall _ Hplain). split; reflexivity.
  - destruct arg; reflexivity.
  - destruct arg; reflexivity.
  - intros Hplain.
    change (cell_value (run c [[CallCommit arg]; [CallReset]]))
      with (cell_value (after (after c [CallCommit arg]) [CallReset])).
    remember (after c [CallCommit arg]) as c1 eqn:Hc1. clear Hc1.
    unfold after, act, flush, events. cbn.
    rewrite (passed_plain funcall _ Hplain). reflexivity.
Qed.

(** ** Who writes which slot *)

(** In the lemmas below the calls go to the render of [c0] while the queue
    is applied to [c]: inside one [act] the closures keep the state of the
    render they come from, and the slots move on underneath. *)

Ltac next_call c0 c call H :=
  rewrite trace_cons, flush_app in H;
  remember (flush c (events (invoke (render c0) call))) as c1 eqn:Hc1.

Ltac which_call c0 call Hc1 :=
  destruct call as [update | | | state];
  [ rewrite invoke_setValue in Hc1
  | destruct (invoke_validate c0) as (b & a & Hv); rewrite Hv in Hc1
  | rewrite invoke_reset in Hc1
  | rewrite invoke_commit in Hc1 ];
  cbn in Hc1; subst.

Lemma error_written_by (c0 : Cell) (calls : list Call) :
  forall c : Cell,
    cell_error (flush c (trace c0 calls)) <> cell_error c ->
    In CallValidate calls \/ In CallReset calls.
Proof.
  induction calls as [|call rest IH]; intros c Hchanged.
  - exfalso. apply Hchanged. reflexivity.
  - next_call c0 c call Hchanged.
    destruct (JsValue_eq_dec (cell_error (flush c1 (trace c0 rest)))
                (cell_error c1)) as [Hsame | Hlater].
    + rewrite Hsame in Hchanged.
      which_call c0 call Hc1; cbn in Hchanged;
        solve [ contradiction | left; left; reflexivity
              | right; left; reflexivity ].
    + destruct (IH c1 Hlater) as [Hin | Hin];
        [left | right]; right; exact Hin.
Qed.

Lemma error_present_by_validate (c0 : Cell) (calls : list Call) :
  forall c : Cell,
    cell_error (flush c (trace c0 calls)) <> cell_error c ->
    cell_error (flush c (trace c0 calls)) <> JsNull ->
    In CallValidate calls.
Proof.
  induction calls as [|call rest IH]; intros c Hchanged Hpresent.
  - exfalso. apply Hchanged. reflexivity.
  - rewrite trace_cons, flush_app in Hpresent.
    next_call c0 c call Hchanged.
    destruct (JsValue_eq_dec (cell_error (flush c1 (trace c0 rest)))
                (cell_error c1)) as [Hsame | Hlater].
    + rewrite Hsame in Hchanged, Hpresent.
      which_call c0 call Hc1; cbn in Hchanged, Hpresent;
        solve [ contradiction | left; reflexivity ].
    + right. exact (IH c1 Hlater Hpresent).
Qed.

Lemma savePoint_written_by (c0 : Cell) (calls : list Call) :
  forall c : Cell,
    cell_savePoint (flush c (trace c0 calls)) <> cell_savePoint c ->
    exists state, In (CallCommit state) calls.
Proof.
  induction calls as [|call rest IH]; intros c Hchanged.
  - exfalso. apply Hchanged. reflexivity.
  - next_call c0 c call Hchanged.
    destruct (JsValue_eq_dec (cell_savePoint (flush c1 (trace c0 rest)))
                (cell_savePoint c1)) as [Hsame | Hlater].
    + rewrite Hsame in Hchanged.
      which_call c0 call Hc1; cbn in Hchanged;
        solve [ contradiction | exists state; left; reflexivity ].
    + destruct (IH c1 Hlater) as [state Hin].
      exists state. right. exact Hin.
Qed.

Lemma value_written_by (c0 : Cell) (calls : list Call) :
  forall c : Cell,
    cell_value (flush c (trace c0 calls)) <> cell_value c ->
    In CallReset calls \/ exists update, In (CallSetValue update) calls.
Proof.
  induction calls as [|call rest IH]; intros c Hchanged.
  - exfalso. apply Hchanged. reflexivity.
  - next_call c0 c call Hchanged.
    destruct (JsValue_eq_dec (cell_value (flush c1 (trace c0 rest)))
                (cell_value c1)) as [Hsame | Hlater].
    + rewrite Hsame in Hchanged.
      which_call c0 call Hc1; cbn in Hchanged;
        solve [ contradiction | left; left; reflexivity
              | right; exists update; left; reflexivity ].
    + destruct (IH c1 Hlater) as [Hin | [update Hin]];
        [left; right; exact Hin | right; exists update; right; exact Hin].
Qed.

(** C7, amended: over every [act] from every cell state (so along every
    sequence of operations): when the error differs afterwards, validate or
    reset was among the calls, and when it differs and is not null, validate
    was; when the save point differs, commit was among the calls; when the
    value differs, setValue or reset was. *)
Theorem sole_writers (c : Cell) (calls : list Call) :
  let c' := after c calls in
  (cell_error c' <> cell_error c ->
     In CallValidate calls \/ In CallReset calls)
  /\ (cell_error c' <> cell_error c -> cell_error c' <> JsNull ->
     In CallValidate calls)
  /\ (cell_savePoint c' <> cell_savePoint c ->
     exists state, In (CallCommit state) calls)
  /\ (cell_value c' <> cell_value c ->
     In CallReset calls \/ exists update, In (CallSetValue update) calls).
Proof.
  cbv zeta. rewrite after_flush.
  split; [apply error_written_by|].
  split; [apply error_present_by_validate|].
  split; [apply savePoint_written_by | apply value_written_by].
Qed.

End Cell.
(** * The test suite's scenarios *)

(** [busy_cell] is the state the reset test reaches from its mounted cell
    before it resets: a setValue and a validate. *)
Example busy_cell_reachable :
  fst (result (mount fixture_funcall (JsString "Init") (JsString "Error hint")
                 always_false))
  = init_cell
  /\ run fixture_funcall (JsString "Init") (JsString "Error hint")
       always_false init_cell
       [[CallSetValue (Plain (JsString "Changed")); CallValidate]]
     = busy_cell.
Proof. split; reflexivity. Qed.

(** Functions get into the slots through the setters: [commit(maker)]
    leaves what [maker] returns as the save point, [setValue(maker)] as the
    value. *)
Example function_cells_reachable :
  after fixture_funcall (JsString "Init") (JsString "Error hint") always_false
    busy_cell [CallCommit (Some (JsFunction maker))]
  = function_savePoint_cell
  /\ after fixture_funcall (JsString "Init") (JsString "Error hint")
       always_false init_cell
       [CallSetValue (passed fixture_funcall (JsFunction maker))]
     = function_value_cell.
Proof. split; reflexivity. Qed.

(** "should set the current value as a new baseline for reset" *)
Example commit_then_reset_script :
  cell_value
    (run fixture_funcall (JsString "Init") (JsString "Error hint")
       always_false init_cell
       [[CallSetValue (Plain (JsString "Changed")); CallValidate];
        [CallCommit None];
        [CallSetValue (Plain (JsString "Other"))];
        [CallReset]])
  = JsString "Changed".
Proof. reflexivity. Qed.

(** The read-after-write hazard: a validate in the same [act] as a setValue
    sees the value of the render, not the one just set. *)
Example validate_reads_render_value :
  validator_calls
    (trace fixture_funcall (JsString "Init") (JsString "Error hint")
       always_false init_cell
       [CallSetValue (Plain (JsString "Changed")); CallValidate])
  = [JsString "Init"].
Proof. reflexivity. Qed.

(** * Instances *)

Lemma mount_initial_state_witness :
  fst (result (mount fixture_funcall (JsString "Init") (JsString "Error hint")
                 always_false))
  = mkCell (JsString "Init") JsNull (JsString "Init")
  /\ events (mount fixture_funcall (JsString "Init") (JsString "Error hint")
               always_false) = [].
Proof.
  destruct (mount_initial_state fixture_funcall (JsString "Init")
              (JsString "Error hint") always_false) as [Hplain _].
  destruct (Hplain eq_refl) as (Hcell & _ & _ & Hevents).
  split; [exact Hcell | exact Hevents].
Defined.

Lemma validate_sets_error_witness :
  (cell_error
     (after fixture_funcall (JsString "Init") (JsString "Error hint")
        always_true busy_cell [CallValidate]) = JsNull
   /\ returned fixture_funcall (JsString "Init") (JsString "Error hint")
        always_true busy_cell [CallValidate] = [JsBoolean true])
  /\ (returned fixture_funcall (JsString "Init") (JsString "Error hint")
        always_false init_cell [CallValidate] = [JsBoolean false]
      /\ cell_error
           (after fixture_funcall (JsString "Init") (JsString "Error hint")
              always_false init_cell [CallValidate]) = JsString "Error hint")
  /\ (returned fixture_funcall (JsString "Init") (JsString "Error hint")
        always_dynamic init_cell [CallValidate] = [JsBoolean false]
      /\ cell_error
           (after fixture_funcall (JsString "Init") (JsString "Error hint")
              always_dynamic init_cell [CallValidate]) = JsString "Dynamic")
  /\ cell_error
       (after fixture_funcall (JsString "Init") (JsString "Error hint")
          always_lazy busy_cell [CallValidate]) = JsString "lazy".
Proof.
  split; [|split; [|split]].
  - apply (validate_sets_error fixture_funcall (JsString "Init")
             (JsString "Error hint") always_true busy_cell).
    reflexivity.
  - destruct (validate_sets_error fixture_funcall (JsString "Init")
                (JsString "Error hint") always_false init_cell)
      as (_ & Hfalse & _).
    destruct (Hfalse eq_refl) as (Hret & Hhint & _).
    split; [exact Hret | apply Hhint; reflexivity].
  - destruct (validate_sets_error fixture_funcall (JsString "Init")
                (JsString "Error hint") always_dynamic init_cell)
      as (_ & _ & Hother & _).
    destruct Hother as (Hret & Hhint & _);
      [intros b Hb; discriminate Hb|].
    split; [exact Hret | apply Hhint; reflexivity].
  - destruct (validate_sets_error fixture_funcall (JsString "Init")
                (JsString "Error hint") always_lazy busy_cell)
      as (_ & _ & Hother & _).
    destruct Hother as (_ & _ & Hfun);
      [intros b Hb; discriminate Hb|].
    apply (Hfun lazy). reflexivity.
Defined.

Lemma validate_null_hint_leaves_valid_witness :
  always_null (cell_value busy_cell) = JsNull
  /\ returned fixture_funcall (JsString "Init") (JsString "Error hint")
       always_null busy_cell [CallValidate] = [JsBoolean false]
  /\ cell_error
       (after fixture_funcall (JsString "Init") (JsString "Error hint")
          always_null busy_cell [CallValidate]) = JsNull.
Proof.
  split; [reflexivity|].
  destruct (validate_null_hint_leaves_valid fixture_funcall (JsString "Init")
              (JsString "Error hint") always_null busy_cell)
    as (Hret & Herr & _); [reflexivity|].
  split; [exact Hret | exact Herr].
Defined.

Lemma reset_restores_savePoint_witness :
  after fixture_funcall (JsString "Init") (JsString "Error hint") always_false
    busy_cell [CallReset]
  = mkCell (JsString "Init") JsNull (JsString "Init")
  /\ after fixture_funcall (JsString "Init") (JsString "Error hint")
       always_false function_savePoint_cell [CallReset]
     = mkCell (JsString "ChangedX") JsNull (JsFunction appender).
Proof.
  split.
  - apply (reset_restores_savePoint fixture_funcall (JsString "Init")
             (JsString "Error hint") always_false busy_cell).
    reflexivity.
  - destruct (reset_restores_savePoint fixture_funcall (JsString "Init")
                (JsString "Error hint") always_false function_savePoint_cell)
      as (_ & Hfun & _).
    apply (Hfun appender). reflexivity.
Defined.

Lemma reset_idempotent_witness :
  after fixture_funcall (JsString "Init") (JsString "Error hint") always_false
    (after fixture_funcall (JsString "Init") (JsString "Error hint")
       always_false busy_cell [CallReset])
    [CallReset]
  = after fixture_funcall (JsString "Init") (JsString "Error hint")
      always_false busy_cell [CallReset].
Proof.
  apply (reset_idempotent fixture_funcall (JsString "Init")
           (JsString "Error hint") always_false busy_cell).
  reflexivity.
Defined.

Lemma commit_nullish_uses_value_witness :
  cell_savePoint
    (after fixture_funcall (JsString "Init") (JsString "Error hint")
       always_false busy_cell [CallCommit (Some JsNull)])
  = JsString "Changed"
  /\ cell_savePoint
       (after fixture_funcall (JsString "Init") (JsString "Error hint")
          always_false function_value_cell [CallCommit (Some JsNull)])
     = JsString "InitX".
Proof.
  split.
  - apply (commit_nullish_uses_value fixture_funcall (JsString "Init")
             (JsString "Error hint") always_false busy_cell).
    reflexivity.
  - destruct (commit_nullish_uses_value fixture_funcall (JsString "Init")
                (JsString "Error hint") always_false function_value_cell)
      as (_ & Hfun & _).
    apply (Hfun appender). reflexivity.
Defined.

Lemma commit_rebaselines_witness :
  (cell_savePoint
     (after fixture_funcall (JsString "Init") (JsString "Error hint")
        always_false busy_cell [CallCommit (Some (JsString "Explicit"))])
   = JsString "Explicit"
   /\ cell_value
        (run fixture_funcall (JsString "Init") (JsString "Error hint")
           always_false busy_cell
           [[CallCommit (Some (JsString "Explicit"))]; [CallReset]])
      = JsString "Explicit")
  /\ (cell_savePoint
        (after fixture_funcall (JsString "Init") (JsString "Error hint")
           always_false busy_cell [CallCommit None])
      = JsString "Changed"
      /\ cell_value
           (run fixture_funcall (JsString "Init") (JsString "Error hint")
              always_false busy_cell [[CallCommit None]; [CallReset]])
         = JsString "Changed")
  /\ cell_value
       (run fixture_funcall (JsString "Init") (JsString "Error hint")
          always_false busy_cell [[CallCommit None]; [CallReset]])
     = cell_savePoint
         (after fixture_funcall (JsString "Init") (JsString "Error hint")
            always_false busy_cell [CallCommit None]).
Proof.
  destruct (commit_rebaselines fixture_funcall (JsString "Init")
              (JsString "Error hint") always_false busy_cell
              (JsString "Explicit") None)
    as (Hstate & Hnone & _ & _ & Hreset).
  split; [|split].
  - apply Hstate; [intros Heq; discriminate Heq
                  | intros Heq; discriminate Heq | reflexivity].
  - apply Hnone. reflexivity.
  - apply Hreset. reflexivity.
Defined.

Lemma sole_writers_witness :
  (In CallValidate [CallReset] \/ In CallReset [CallReset])
  /\ In CallValidate [CallValidate]
  /\ (exists state, In (CallCommit state) [CallCommit None])
  /\ (In CallReset [CallSetValue (Updater append_X)]
      \/ exists update, In (CallSetValue update)
                          [CallSetValue (Updater append_X)]).
Proof.
  split; [|split; [|split]].
  - apply (sole_writers fixture_funcall (JsString "Init")
             (JsString "Error hint") always_false busy_cell [CallReset]).
    cbn. intros Heq. discriminate Heq.
  - apply (sole_writers fixture_funcall (JsString "Init")
             (JsString "Error hint") always_false init_cell [CallValidate]);
      cbn; intros Heq; discriminate Heq.
  - apply (sole_writers fixture_funcall (JsString "Init")
             (JsString "Error hint") always_false busy_cell
             [CallCommit None]).
    cbn. intros Heq. discriminate Heq.
  - apply (sole_writers fixture_funcall (JsString "Init")
             (JsString "Error hint") always_false init_cell
             [CallSetValue (Updater append_X)]).
    cbn. intros Heq. discriminate Heq.
Defined.

(** * Where the code departs from a universal reading *)

(** Against C1 as stated: a validator that returns the function [lazy]
    returns a non-boolean, yet the error stored is not that function: the
    host runs it and stores "lazy". *)
Lemma validate_function_hint_counterexample :
  (forall b, always_lazy (cell_value busy_cell) <> JsBoolean b)
  /\ cell_error
       (after fixture_funcall (JsString "Init") (JsString "Error hint")
          always_lazy busy_cell [CallValidate])
     = JsString "lazy"
  /\ cell_error
       (after fixture_funcall (JsString "Init") (JsString "Error hint")
          always_lazy busy_cell [CallValidate])
     <> always_lazy (cell_value busy_cell).
Proof.
  split; [intros b Hb; discriminate Hb|].
  split; [reflexivity | cbn; intros Heq; discriminate Heq].
Qed.

(** Against C2 as stated: with the function [appender] as the save point,
    reset does not store the save point as the value: the host runs it on
    the value "Changed" and stores "ChangedX". *)
Lemma reset_function_savePoint_counterexample :
  cell_value
    (after fixture_funcall (JsString "Init") (JsString "Error hint")
       always_false function_savePoint_cell [CallReset])
  = JsString "ChangedX"
  /\ cell_value
       (after fixture_funcall (JsString "Init") (JsString "Error hint")
          always_false function_savePoint_cell [CallReset])
     <> cell_savePoint function_savePoint_cell.
Proof. split; [reflexivity | cbn; intros Heq; discriminate Heq]. Qed.

(** Against C3 as stated: commit(appender) supplies a state, yet the save
    point does not become that state: the host runs it on the save point
    "Init" and stores "InitX".  And a reset in the same [act] as
    commit("Explicit") still restores "Init". *)
Lemma commit_function_state_counterexample :
  cell_savePoint
    (after fixture_funcall (JsString "Init") (JsString "Error hint")
       always_false busy_cell [CallCommit (Some (JsFunction appender))])
  = JsString "InitX"
  /\ cell_savePoint
       (after fixture_funcall (JsString "Init") (JsString "Error hint")
          always_false busy_cell [CallCommit (Some (JsFunction appender))])
     <> JsFunction appender
  /\ cell_value
       (after fixture_funcall (JsString "Init") (JsString "Error hint")
          always_false busy_cell
          [CallCommit (Some (JsString "Explicit")); CallReset])
     = JsString "Init".
Proof.
  split; [reflexivity|].
  split; [cbn; intros Heq; discriminate Heq | reflexivity].
Qed.

(** Against C4 as stated: mounted with the function [lazy] as the initial
    value, the cell does not hold that function: the host calls it for the
    value and for the save point, and both are "lazy". *)
Lemma mount_lazy_initialValue_counterexample :
  fst (result (mount fixture_funcall (JsFunction lazy) (JsString "Error hint")
                 always_false))
  = mkCell (JsString "lazy") JsNull (JsString "lazy")
  /\ cell_value
       (fst (result (mount fixture_funcall (JsFunction lazy)
                       (JsString "Error hint") always_false)))
     <> JsFunction lazy
  /\ events (mount fixture_funcall (JsFunction lazy) (JsString "Error hint")
               always_false)
     = [Invoked lazy JsUndefined; Invoked lazy JsUndefined].
Proof.
  split; [reflexivity|].
  split; [cbn; intros Heq; discriminate Heq | reflexivity].
Qed.

(** Against C7 as stated: reset, with no validate among the calls, changes
    the error of a cell that holds one. *)
Lemma reset_writes_error_counterexample :
  cell_error
    (after fixture_funcall (JsString "Init") (JsString "Error hint")
       always_false busy_cell [CallReset])
  <> cell_error busy_cell
  /\ ~ In CallValidate [CallReset].
Proof.
  split.
  - cbn. intros Heq. discriminate Heq.
  - cbn. intros [Heq | []]. discriminate Heq.
Qed.

(** Against C8 as stated: with the function [appender] as the save point,
    a second reset runs it once more: "ChangedX" after one reset,
    "ChangedXX" after two. *)
Lemma reset_twice_function_savePoint_counterexample :
  cell_value
    (after fixture_funcall (JsString "Init") (JsString "Error hint")
       always_false
       (after fixture_funcall (JsString "Init") (JsString "Error hint")
          always_false function_savePoint_cell [CallReset])
       [CallReset])
  = JsString "ChangedXX"
  /\ after fixture_funcall (JsString "Init") (JsString "Error hint")
       always_false
       (after fixture_funcall (JsString "Init") (JsString "Error hint")
          always_false function_savePoint_cell [CallReset])
       [CallReset]
     <> after fixture_funcall (JsString "Init") (JsString "Error hint")
          always_false function_savePoint_cell [CallReset].
Proof. split; [reflexivity | cbn; intros Heq; discriminate Heq]. Qed.

(** Against C9 as stated: with the function [appender] in the value slot,
    commit(null) does not store the current value as the save point: the
    host runs it on the save point "Init" and stores "InitX". *)
Lemma commit_null_function_value_counterexample :
  cell_savePoint
    (after fixture_funcall (JsString "Init") (JsString "Error hint")
       always_false function_value_cell [CallCommit (Some JsNull)])
  = JsString "InitX"
  /\ cell_savePoint
       (after fixture_funcall (JsString "Init") (JsString "Error hint")
          always_false function_value_cell [CallCommit (Some JsNull)])
     <> cell_value function_value_cell.
Proof. split; [reflexivity | cbn; intros Heq; discriminate Heq]. Qed.

(** * Calls that share an [act] *)

Section Batches.

Variable funcall : FunRef -> JsValue -> JsValue.
Variables (initialValue staticHint : JsValue).
Variable validator : JsValue -> JsValue.

Local Abbreviation render := (render funcall initialValue staticHint validator).
Local Abbreviation after := (after funcall initialValue staticHint validator).
Local Abbreviation trace := (trace funcall initialValue staticHint validator).
Local Abbreviation returned :=
  (returned funcall initialValue staticHint validator).
Local Abbreviation run := (run funcall initialValue staticHint validator).
Local Abbreviation mount := (mount funcall initialValue staticHint validator).

Lemma trace_app (c : Cell) (calls1 calls2 : list Call) :
  trace c (calls1 ++ calls2) = (trace c calls1 ++ trace c calls2)%list.
Proof.
  induction calls1 as [|call rest IH]; [reflexivity|].
  rewrite <- app_comm_cons, !trace_cons, IH. apply app_assoc.
Qed.

Lemma after_app (c : Cell) (calls1 calls2 : list Call) :
  after c (calls1 ++ calls2) = flush (after c calls1) (trace c calls2).
Proof. rewrite !after_flush, trace_app. apply flush_app. Qed.

Lemma returned_cons (c : Cell) (call : Call) (rest : list Call) :
  returned c (call :: rest)
  = result (invoke (render c) call) :: returned c rest.
Proof.
  unfold returned, act. cbn [snd batch].
  rewrite result_bind, result_bind. reflexivity.
Qed.

Lemma returned_app (c : Cell) (calls1 calls2 : list Call) :
  returned c (calls1 ++ calls2)
  = (returned c calls1 ++ returned c calls2)%list.
Proof.
  induction calls1 as [|call rest IH]; [reflexivity|].
  rewrite <- app_comm_cons, !returned_cons, IH. reflexivity.
Qed.

Lemma run_app (c : Cell) (script1 script2 : list (list Call)) :
  run c (script1 ++ script2) = run (run c script1) script2.
Proof. unfold run. apply fold_left_app. Qed.

(** The queue of one validate.  When neither the static hint nor the
    validator's result is a function, the queued action stores the error a
    validate called alone leaves. *)
Lemma trace_validate (c : Cell) :
  exists a : SetStateAction,
    trace c [CallValidate] = [Called (cell_value c); Dispatch ErrorSlot a]
    /\ (callable staticHint = false ->
        callable (validator (cell_value c)) = false ->
        a = Plain (cell_error (after c [CallValidate]))).
Proof.
  unfold after, act, trace, flush, events. cbn.
  destruct (negb (String.eqb (typeof (validator (cell_value c))) "boolean")).
  - eexists. split; [reflexivity|]. intros _ Hr.
    rewrite (passed_plain funcall _ Hr). reflexivity.
  - destruct (negb (ToBoolean (validator (cell_value c)))).
    + eexists. split; [reflexivity|]. intros Hh _.
      rewrite (passed_plain funcall _ Hh). reflexivity.
    + eexists. split; [reflexivity|]. intros _ _. reflexivity.
Qed.

(** ** validate *)

(** X1: inside one [act], every call of the validator receives the value of
    the render the callbacks came from, whatever setValue, reset or commit
    calls come before it; and the validator is called once per validate and
    by nothing else. *)
Theorem validator_sees_render_value (c : Cell) (calls : list Call) :
  validator_calls (trace c calls)
  = repeat (cell_value c) (length (filter is_validate calls)).
Proof.
  induction calls as [|call rest IH]; [reflexivity|].
  rewrite trace_cons, validator_calls_app, IH.
  destruct call as [update | | | state]; cbn [filter is_validate];
    [ rewrite invoke_setValue
    | destruct (invoke_validate funcall initialValue staticHint validator c)
        as (b & a & Hv); rewrite Hv
    | rewrite invoke_reset
    | rewrite invoke_commit ];
    reflexivity.
Qed.

(** X2: validate returns true exactly when the validator returned the boolean
    true (a truthy value of another type does not count), it returns true or
    false, and when it returns true the stored error is null. *)
Theorem validate_true_iff (c : Cell) :
  (returned c [CallValidate] = [JsBoolean true]
   <-> validator (cell_value c) = JsBoolean true)
  /\ (returned c [CallValidate] = [JsBoolean true] ->
      cell_error (after c [CallValidate]) = JsNull)
  /\ (returned c [CallValidate] = [JsBoolean true]
      \/ returned c [CallValidate] = [JsBoolean false]).
Proof.
  unfold after, returned, act, flush, events, result. cbn.
  destruct (validator (cell_value c)) as [ | | [|] | n | s | f]; cbn;
    (split; [split; intros H; (reflexivity || discriminate H) |]);
    (split; [intros H; (reflexivity || discriminate H) |]);
    (left; reflexivity) || (right; reflexivity).
Qed.

(** X3: when neither the static hint nor the validator's result is a
    function, validating again without touching the value changes nothing:
    the cell and the returned boolean are those of the first validate, in a
    later [act] as in the same one. *)
Theorem validate_idempotent (c : Cell) :
  callable staticHint = false ->
  callable (validator (cell_value c)) = false ->
  after (after c [CallValidate]) [CallValidate] = after c [CallValidate]
  /\ returned (after c [CallValidate]) [CallValidate]
     = returned c [CallValidate]
  /\ after c [CallValidate; CallValidate] = after c [CallValidate].
Proof.
  intros Hhint Hres. destruct c as [v e s]. cbn in Hres.
  unfold after, returned, act, flush, events, result. cbn.
  rewrite (passed_plain funcall _ Hhint).
  destruct (validator v) as [ | | [|] | n | t | f] eqn:Hr;
    try discriminate Hres; cbn;
    rewrite ?Hr; cbn; rewrite ?Hr; repeat split.
Qed.

(** X4: a validate queued after other calls of the same [act] returns the
    verdict on the value of the render, and, when neither the static hint
    nor the validator's result is a function, stores the error of a validate
    called alone; the value and the save point are those the earlier calls
    produce. *)
Theorem validate_ignores_pending_calls (c : Cell) (calls : list Call) :
  (callable staticHint = false ->
   callable (validator (cell_value c)) = false ->
   cell_error (after c (calls ++ [CallValidate]))
   = cell_error (after c [CallValidate]))
  /\ cell_value (after c (calls ++ [CallValidate]))
     = cell_value (after c calls)
  /\ cell_savePoint (after c (calls ++ [CallValidate]))
     = cell_savePoint (after c calls)
  /\ returned c (calls ++ [CallValidate])
     = (returned c calls ++ returned c [CallValidate])%list.
Proof.
  rewrite after_app, returned_app.
  destruct (trace_validate c) as (a & Htrace & Hplain).
  rewrite Htrace. split; [|repeat split].
  intros Hhint Hres. rewrite (Hplain Hhint Hres). reflexivity.
Qed.

(** ** reset and commit *)

(** X5: a reset queued last in an [act] wins for value and error.  The
    error is null, and the value is the save point of the render when that
    is not a function: a commit made earlier in the same [act] moves the
    save point but is not what this reset restores.  A function save point
    is run on the value the earlier calls produce. *)
Theorem reset_last_restores_render_savePoint (c : Cell) (calls : list Call) :
  (callable (cell_savePoint c) = false ->
   cell_value (after c (calls ++ [CallReset])) = cell_savePoint c)
  /\ (forall ref, cell_savePoint c = JsFunction ref ->
        cell_value (after c (calls ++ [CallReset]))
        = funcall ref (cell_value (after c calls)))
  /\ cell_error (after c (calls ++ [CallReset])) = JsNull
  /\ cell_savePoint (after c (calls ++ [CallReset]))
     = cell_savePoint (after c calls).
Proof.
  rewrite after_app.
  split; [|split; [|split; reflexivity]].
  - intros Hplain. unfold trace, events. cbn.
    rewrite (passed_plain funcall _ Hplain). reflexivity.
  - intros ref Href. unfold trace, events. cbn.
    rewrite Href. reflexivity.
Qed.

(** X6: a commit queued last in an [act] decides the save point: it is the
    argument when that is neither undefined nor null nor a function; it is
    the value of the render (not a value set earlier in the same [act]) when
    the argument is missing, undefined or null and that value is not a
    function; and a function argument is run on the save point the earlier
    calls produce.  Value and error are those the earlier calls produce. *)
Theorem commit_last_stores_render_value
    (c : Cell) (calls : list Call) (state : option JsValue) :
  (forall s, state = Some s ->
     s <> JsUndefined -> s <> JsNull -> callable s = false ->
     cell_savePoint (after c (calls ++ [CallCommit state])) = s)
  /\ (state = None \/ state = Some JsUndefined \/ state = Some JsNull ->
      callable (cell_value c) = false ->
      cell_savePoint (after c (calls ++ [CallCommit state])) = cell_value c)
  /\ (forall ref, state = Some (JsFunction ref) ->
        cell_savePoint (after c (calls ++ [CallCommit state]))
        = funcall ref (cell_savePoint (after c calls)))
  /\ cell_value (after c (calls ++ [CallCommit state]))
     = cell_value (after c calls)
  /\ cell_error (after c (calls ++ [CallCommit state]))
     = cell_error (after c calls).
Proof.
  rewrite after_app.
  split; [|split; [|split; [|split; destruct state; reflexivity]]].
  - intros s Hs Hundef Hnull Hplain. subst state.
    destruct s; try contradiction; try discriminate Hplain; reflexivity.
  - intros Hmissing Hplain. unfold trace, events.
    destruct Hmissing as [-> | [-> | ->]]; cbn;
      rewrite (passed_plain funcall _ Hplain); reflexivity.
  - intros ref ->. reflexivity.
Qed.

(** ** setValue *)

Lemma trace_setValues (c : Cell) (updates : list SetStateAction) :
  trace c (map CallSetValue updates) = map (Dispatch ValueSlot) updates.
Proof.
  induction updates as [|u rest IH]; [reflexivity|].
  cbn [map]. rewrite trace_cons, IH. reflexivity.
Qed.

Lemma flush_value_updates (updates : list SetStateAction) :
  forall c : Cell,
    flush c (map (Dispatch ValueSlot) updates)
    = mkCell (fold_left (fun v a => apply_action a v) updates (cell_value c))
        (cell_error c) (cell_savePoint c).
Proof.
  induction updates as [|u rest IH]; intros c.
  - destruct c. reflexivity.
  - cbn [map]. change (flush c (Dispatch ValueSlot u :: ?q))
      with (flush (apply_event c (Dispatch ValueSlot u)) q).
    rewrite IH. reflexivity.
Qed.

(** X7: setValue calls compose: a batch of them leaves the value obtained by
    applying the updates in order, each updater to the outcome of the ones
    before it, with error and save point untouched; and it makes no
    difference whether the calls share one [act] or each has its own. *)
Theorem setValue_batch_composes (c : Cell) (updates : list SetStateAction) :
  after c (map CallSetValue updates)
  = mkCell (fold_left (fun v a => apply_action a v) updates (cell_value c))
      (cell_error c) (cell_savePoint c)
  /\ run c (map (fun u => [CallSetValue u]) updates)
     = after c (map CallSetValue updates).
Proof.
  split.
  - rewrite after_flush, trace_setValues. apply flush_value_updates.
  - rewrite after_flush, trace_setValues. revert c.
    induction updates as [|u rest IH]; intros c; [reflexivity|].
    cbn [map]. change (run c ([CallSetValue u] :: ?s))
      with (run (after c [CallSetValue u]) s).
    rewrite IH. reflexivity.
Qed.

(** ** Scripts *)

Lemma commit_free_act (c : Cell) (calls : list Call) :
  forallb (fun call => negb (is_commit call)) calls = true ->
  cell_savePoint (after c calls) = cell_savePoint c.
Proof.
  intros Hfree.
  destruct (JsValue_eq_dec (cell_savePoint (after c calls)) (cell_savePoint c))
    as [Hsame | Hchanged]; [exact Hsame|].
  rewrite after_flush in Hchanged.
  destruct (savePoint_written_by funcall initialValue staticHint validator
              c calls c Hchanged) as [state Hin].
  rewrite forallb_forall in Hfree.
  specialize (Hfree _ Hin). discriminate Hfree.
Qed.

Lemma commit_free_run (script : list (list Call)) :
  forall c : Cell,
    commit_free script = true ->
    cell_savePoint (run c script) = cell_savePoint c.
Proof.
  induction script as [|calls rest IH]; intros c Hfree; [reflexivity|].
  cbn in Hfree. apply andb_prop in Hfree. destruct Hfree as [Hcalls Hrest].
  change (run c (calls :: rest)) with (run (after c calls) rest).
  rewrite (IH _ Hrest). apply commit_free_act. exact Hcalls.
Qed.

Lemma reset_value (c : Cell) :
  callable (cell_savePoint c) = false ->
  cell_value (after c [CallReset]) = cell_savePoint c.
Proof.
  intros Hplain. unfold after, act, flush, events. cbn.
  rewrite (passed_plain funcall _ Hplain). reflexivity.
Qed.

(** X8: as long as no commit is called, whatever else is, the save point
    stays where it is, and a reset brings the value back to it when it is
    not a function; for a cell mounted with an initial value that is not a
    function, that is the initial value. *)
Theorem reset_returns_to_baseline (c : Cell) (script : list (list Call)) :
  commit_free script = true ->
  cell_savePoint (run c script) = cell_savePoint c
  /\ (callable (cell_savePoint c) = false ->
      cell_value (run c (script ++ [[CallReset]])) = cell_savePoint c)
  /\ (callable initialValue = false ->
      cell_value (run (fst (result mount)) (script ++ [[CallReset]]))
      = initialValue).
Proof.
  intros Hfree. split; [apply commit_free_run; exact Hfree|].
  rewrite !run_app. split.
  - intros Hplain.
    assert (Hsp := commit_free_run script c Hfree).
    change (cell_value (after (run c script) [CallReset]) = cell_savePoint c).
    rewrite reset_value; [exact Hsp | rewrite Hsp; exact Hplain].
  - intros Hplain.
    assert (Hsp : cell_savePoint (run (fst (result mount)) script)
                  = initialValue).
    { rewrite (commit_free_run script _ Hfree).
      destruct initialValue; try discriminate Hplain; reflexivity. }
    change (cell_value (after (run (fst (result mount)) script) [CallReset])
            = initialValue).
    rewrite reset_value; [exact Hsp | rewrite Hsp; exact Hplain].
Qed.

Section ErrorDomain.

Hypothesis Hhint : callable staticHint = false.
Hypothesis Hres : forall x, callable (validator x) = false.

Lemma validate_error_domain (c : Cell) :
  let e := cell_error (after c [CallValidate]) in
  e = JsNull \/ e = staticHint
  \/ exists x, e = validator x /\ forall b, e <> JsBoolean b.
Proof.
  assert (Hr := Hres (cell_value c)).
  unfold after, act, flush, events. cbn.
  rewrite (passed_plain funcall _ Hhint).
  destruct (validator (cell_value c)) as [ | | [|] | n | s | f] eqn:Hv;
    try discriminate Hr; cbn;
    try (left; reflexivity); try (right; left; reflexivity);
    right; right; exists (cell_value c); rewrite Hv;
    (split; [reflexivity | intros b Hb; discriminate Hb]).
Qed.

Lemma error_domain_act (c0 : Cell) (calls : list Call) :
  forall c : Cell,
    (cell_error c = JsNull \/ cell_error c = staticHint
     \/ exists x, cell_error c = validator x
                  /\ forall b, cell_error c <> JsBoolean b) ->
    let e := cell_error (flush c (trace c0 calls)) in
    e = JsNull \/ e = staticHint
    \/ exists x, e = validator x /\ forall b, e <> JsBoolean b.
Proof.
  induction calls as [|call rest IH]; intros c Hc; [exact Hc|].
  change (call :: rest) with ([call] ++ rest)%list.
  rewrite trace_app, flush_app. apply IH.
  destruct call as [update | | | state].
  - exact Hc.
  - destruct (trace_validate c0) as (a & Htrace & Hplain).
    rewrite Htrace, (Hplain Hhint (Hres _)). apply validate_error_domain.
  - left. reflexivity.
  - destruct state; exact Hc.
Qed.

End ErrorDomain.

(** X9: when neither the static hint nor any result of the validator is a
    function, then whatever a component does with a mounted cell, the
    error it sees is null, the static hint, or a non-boolean value the
    validator returned: no call stores anything else. *)
Theorem error_is_null_or_a_hint (script : list (list Call)) :
  callable staticHint = false ->
  (forall x, callable (validator x) = false) ->
  let e := cell_error (run (fst (result mount)) script) in
  e = JsNull \/ e = staticHint
  \/ exists x, e = validator x /\ forall b, e <> JsBoolean b.
Proof.
  intros Hhint Hres. cbv zeta.
  assert (Hgen : forall c : Cell,
    (cell_error c = JsNull \/ cell_error c = staticHint
     \/ exists x, cell_error c = validator x
                  /\ forall b, cell_error c <> JsBoolean b) ->
    cell_error (run c script) = JsNull
    \/ cell_error (run c script) = staticHint
    \/ exists x, cell_error (run c script) = validator x
                 /\ forall b, cell_error (run c script) <> JsBoolean b).
  { induction script as [|calls rest IH]; intros c Hc; [exact Hc|].
    change (run c (calls :: rest)) with (run (after c calls) rest).
    apply IH. rewrite after_flush.
    apply (error_domain_act Hhint Hres). exact Hc. }
  apply Hgen. left.
  destruct initialValue; reflexivity.
Qed.

End Batches.

(** ** Re-rendering *)

(** X10: after the mount the [initialValue] argument is dead: a render with
    another one hands out the same object, keeps the memory, enqueues
    nothing and calls nothing, and no script can tell the difference. *)
Theorem initialValue_read_on_mount_only
    (funcall : FunRef -> JsValue -> JsValue)
    (initialValue initialValue' staticHint : JsValue)
    (validator : JsValue -> JsValue)
    (c : Cell) (script : list (list Call)) :
  useInputValidation funcall initialValue' staticHint validator (Some c)
  = useInputValidation funcall initialValue staticHint validator (Some c)
  /\ fst (result (useInputValidation funcall initialValue' staticHint
                    validator (Some c))) = c
  /\ events (useInputValidation funcall initialValue' staticHint validator
               (Some c))
     = []
  /\ run funcall initialValue' staticHint validator c script
     = run funcall initialValue staticHint validator c script.
Proof.
  destruct c as [v e s]. repeat split.
Qed.

(** * The earlier releases *)

Section EarlyHost.

Variable hook : option Early.Cell -> Eff (Early.Cell * Early.InputValidation).

Lemma early_trace_cons (c : Early.Cell) (call : Early.Call)
    (rest : list Early.Call) :
  Early.trace hook c (call :: rest)
  = (events (Early.invoke (Early.render hook c) call)
     ++ Early.trace hook c rest)%list.
Proof.
  unfold Early.trace. simpl Early.batch.
  rewrite events_bind, events_bind. simpl. rewrite app_nil_r. reflexivity.
Qed.

Lemma early_returned_cons (c : Early.Cell) (call : Early.Call)
    (rest : list Early.Call) :
  Early.returned hook c (call :: rest)
  = result (Early.invoke (Early.render hook c) call)
    :: Early.returned hook c rest.
Proof.
  unfold Early.returned, Early.act. cbn [snd Early.batch].
  rewrite result_bind, result_bind. reflexivity.
Qed.

End EarlyHost.

Lemma forget_flush (queue : list Event) :
  forall c : Cell, forget (flush c queue) = Early.flush (forget c) queue.
Proof.
  induction queue as [|e rest IH]; intros c; [reflexivity|].
  change (flush c (e :: rest)) with (flush (apply_event c e) rest).
  rewrite IH. destruct e as [[ | | ] a | arg | ref arg]; reflexivity.
Qed.

Lemma upgrade_not_commit (calls : list Early.Call) :
  forallb (fun call => negb (is_commit call)) (map upgrade calls) = true.
Proof.
  induction calls as [|call rest IH]; [reflexivity|].
  cbn [map forallb]. rewrite IH. destruct call; reflexivity.
Qed.

Lemma upgrade_commit_free (script : list (list Early.Call)) :
  commit_free (map (map upgrade) script) = true.
Proof.
  induction script as [|calls rest IH]; [reflexivity|].
  unfold commit_free in *. cbn [map forallb].
  rewrite upgrade_not_commit, IH. reflexivity.
Qed.

Section Upgrade.

Variable funcall : FunRef -> JsValue -> JsValue.
Variables (initialValue staticHint : JsValue).
Variable validator : JsValue -> JsValue.

Local Abbreviation current_run :=
  (run funcall initialValue staticHint validator).
Local Abbreviation current_after :=
  (after funcall initialValue staticHint validator).
Local Abbreviation current_returned :=
  (returned funcall initialValue staticHint validator).
Local Abbreviation current_mount :=
  (mount funcall initialValue staticHint validator).
Local Abbreviation interim :=
  (Interim.useInputValidation funcall initialValue staticHint validator).

(** While the save point is the initial value, a call of the early
    interface enqueues and returns the same on both hooks. *)
Lemma upgrade_batch (c : Cell) (calls : list Early.Call) :
  cell_savePoint c = initialValue ->
  batch (render funcall initialValue staticHint validator c)
    (map upgrade calls)
  = Early.batch (Early.render interim (forget c)) calls.
Proof.
  intros Hbase. destruct c as [v e s]. cbn in Hbase. subst s.
  induction calls as [|call rest IH]; [reflexivity|].
  cbn [map batch Early.batch]. rewrite IH.
  destruct call; reflexivity.
Qed.

Lemma upgrade_act (c : Cell) (calls : list Early.Call) :
  cell_savePoint c = initialValue ->
  forget (current_after c (map upgrade calls))
  = Early.after interim (forget c) calls
  /\ current_returned c (map upgrade calls)
     = Early.returned interim (forget c) calls
  /\ cell_savePoint (current_after c (map upgrade calls)) = initialValue.
Proof.
  intros Hbase. split; [|split].
  - unfold after, act, Early.after, Early.act. cbn [fst].
    rewrite (upgrade_batch c calls Hbase), forget_flush. reflexivity.
  - unfold returned, act, Early.returned, Early.act. cbn [snd].
    rewrite (upgrade_batch c calls Hbase). reflexivity.
  - rewrite (commit_free_act funcall initialValue staticHint validator c
               (map upgrade calls) (upgrade_not_commit calls)).
    exact Hbase.
Qed.

Lemma upgrade_run (script : list (list Early.Call)) :
  forall c : Cell,
    cell_savePoint c = initialValue ->
    forget (current_run c (map (map upgrade) script))
    = Early.run interim (forget c) script
    /\ cell_savePoint (current_run c (map (map upgrade) script))
       = initialValue.
Proof.
  induction script as [|calls rest IH]; intros c Hbase.
  - split; [reflexivity | exact Hbase].
  - destruct (upgrade_act c calls Hbase) as (Hcell & _ & Hbase').
    cbn [map].
    change (current_run c (map upgrade calls :: ?s))
      with (current_run (current_after c (map upgrade calls)) s).
    change (Early.run interim (forget c) (calls :: rest))
      with (Early.run interim (Early.after interim (forget c) calls) rest).
    rewrite <- Hcell. apply IH. exact Hbase'.
Qed.

(** X11: a component written against the release without commit, which
    passes the same arguments at every render and an initial value that is
    not a function, sees no difference after the upgrade: from the mount,
    over every script of setValue, validate and reset calls, the current
    hook shows the same value and error as the interim one, and every call
    returns the same. *)
Theorem upgrade_preserves_early_behaviour
    (script : list (list Early.Call)) (calls : list Early.Call) :
  callable initialValue = false ->
  let c := current_run (fst (result current_mount))
             (map (map upgrade) script) in
  let c' := Early.run interim (fst (result (interim None))) script in
  forget c = c'
  /\ current_returned c (map upgrade calls) = Early.returned interim c' calls
  /\ forget (current_after c (map upgrade calls))
     = Early.after interim c' calls.
Proof.
  intros Hplain. cbv zeta.
  assert (Hmount : cell_savePoint (fst (result current_mount)) = initialValue)
    by (destruct initialValue; try discriminate Hplain; reflexivity).
  destruct (upgrade_run script (fst (result current_mount)) Hmount)
    as [Hcell Hbase].
  assert (Hsame : forget (fst (result current_mount))
                  = fst (result (interim None)))
    by (destruct initialValue; reflexivity).
  rewrite Hsame in Hcell.
  destruct (upgrade_act _ calls Hbase) as (Hafter & Hret & _).
  rewrite <- Hcell. split; [reflexivity|]. split; assumption.
Qed.

End Upgrade.

Section Predicates.

Variable funcall : FunRef -> JsValue -> JsValue.
Variables (initialValue hint : JsValue).
Variable validator : JsValue -> JsValue.

Local Abbreviation legacy :=
  (Legacy.useInputValidation funcall initialValue hint validator).
Local Abbreviation interim :=
  (Interim.useInputValidation funcall initialValue hint validator).

Lemma legacy_interim_batch (c : Early.Cell) (calls : list Early.Call) :
  (forall x, exists b, validator x = JsBoolean b) ->
  Early.batch (Early.render legacy c) calls
  = Early.batch (Early.render interim c) calls.
Proof.
  intros Hbool. destruct c as [v e].
  induction calls as [|call rest IH]; [reflexivity|].
  cbn [Early.batch]. rewrite IH.
  destruct call; try reflexivity.
  cbn. destruct (Hbool v) as [b Hb]. rewrite Hb.
  destruct b; reflexivity.
Qed.

(** X12: with a validator that only ever returns booleans, the release that
    introduced dynamic hints behaves as the first one did: every [act]
    leaves the same cell and returns the same values, and so does every
    script. *)
Theorem dynamic_hints_keep_predicates
    (c : Early.Cell) (calls : list Early.Call)
    (script : list (list Early.Call)) :
  (forall x, exists b, validator x = JsBoolean b) ->
  Early.act interim c calls = Early.act legacy c calls
  /\ Early.run interim c script = Early.run legacy c script.
Proof.
  intros Hbool. split.
  - unfold Early.act. rewrite (legacy_interim_batch c calls Hbool).
    reflexivity.
  - revert c. induction script as [|batch1 rest IH]; intros c; [reflexivity|].
    change (Early.run interim c (batch1 :: rest))
      with (Early.run interim (Early.after interim c batch1) rest).
    change (Early.run legacy c (batch1 :: rest))
      with (Early.run legacy (Early.after legacy c batch1) rest).
    rewrite IH. unfold Early.after, Early.act.
    rewrite (legacy_interim_batch c batch1 Hbool). reflexivity.
Qed.

(** X13: where the two part: when the validator returns a value that is
    neither a boolean nor a function, the first release goes by its
    truthiness (a truthy one passes, with error null; a falsy one fails,
    with the static hint as the error when that is not a function), while
    the current hook always fails and stores the returned value as the
    error. *)
Theorem truthy_hint_passed_the_first_release (c : Cell) :
  let r := validator (cell_value c) in
  (forall b, r <> JsBoolean b) ->
  callable r = false ->
  (ToBoolean r = true ->
     Early.act legacy (forget c) [Early.CallValidate]
     = (Early.mkCell (cell_value c) JsNull, [JsBoolean true]))
  /\ (ToBoolean r = false -> callable hint = false ->
     Early.act legacy (forget c) [Early.CallValidate]
     = (Early.mkCell (cell_value c) hint, [JsBoolean false]))
  /\ act funcall initialValue hint validator c [CallValidate]
     = (mkCell (cell_value c) r (cell_savePoint c), [JsBoolean false]).
Proof.
  cbv zeta. intros Hhint Hres. destruct c as [v e s].
  cbn in Hhint, Hres.
  unfold act, Early.act, flush, Early.flush, events, result. cbn.
  remember (validator v) as r eqn:Hr.
  destruct r as [ | | b | n | t | f]; try discriminate Hres; cbn;
    try (exfalso; apply (Hhint b); reflexivity);
    (split; [intros Ht | split; [intros Ht Hplain |]]);
    try discriminate Ht; try (cbn in Ht; rewrite Ht);
    try rewrite (passed_plain funcall hint Hplain); reflexivity.
Qed.

End Predicates.

(** X14: in the early releases reset goes to the [initialValue] argument of
    the render it is called in, so a component that re-renders with another
    initial value (not a function) resets to that one; the current hook,
    mounted with an initial value that is not a function and re-rendered
    the same way after any script without commit, still resets to the
    initial value of the mount. *)
Theorem early_reset_follows_argument
    (funcall : FunRef -> JsValue -> JsValue)
    (initialValue initialValue' hint : JsValue)
    (validator : JsValue -> JsValue)
    (c : Early.Cell) (script : list (list Early.Call)) :
  (callable initialValue' = false ->
   Early.after (Legacy.useInputValidation funcall initialValue' hint validator)
     c [Early.CallReset] = Early.mkCell initialValue' JsNull
   /\ Early.after
        (Interim.useInputValidation funcall initialValue' hint validator)
        c [Early.CallReset] = Early.mkCell initialValue' JsNull)
  /\ (callable initialValue = false ->
      cell_value
        (after funcall initialValue' hint validator
           (run funcall initialValue hint validator
              (fst (result (mount funcall initialValue hint validator)))
              (map (map upgrade) script))
           [CallReset])
      = initialValue).
Proof.
  split.
  - intros Hplain.
    unfold Early.after, Early.act, Early.flush, events. cbn.
    rewrite (passed_plain funcall _ Hplain). split; reflexivity.
  - intros Hplain.
    assert (Hsp : cell_savePoint
                    (run funcall initialValue hint validator
                       (fst (result (mount funcall initialValue hint
                                       validator)))
                       (map (map upgrade) script))
                  = initialValue).
    { rewrite (commit_free_run funcall initialValue hint validator _ _
                 (upgrade_commit_free script)).
      destruct initialValue; try discriminate Hplain; reflexivity. }
    rewrite (reset_value funcall initialValue' hint validator);
      [exact Hsp | rewrite Hsp; exact Hplain].
Qed.

(** * Further instances *)

Lemma validate_true_iff_witness :
  returned fixture_funcall (JsString "Init") (JsString "Error hint")
    always_true busy_cell [CallValidate] = [JsBoolean true]
  /\ cell_error
       (after fixture_funcall (JsString "Init") (JsString "Error hint")
          always_true busy_cell [CallValidate]) = JsNull.
Proof.
  destruct (validate_true_iff fixture_funcall (JsString "Init")
              (JsString "Error hint") always_true busy_cell)
    as (Hiff & Hclean & _).
  assert (Hret := proj2 Hiff eq_refl).
  split; [exact Hret | exact (Hclean Hret)].
Defined.

Lemma validate_idempotent_witness :
  after fixture_funcall (JsString "Init") (JsString "Error hint")
    always_dynamic
    (after fixture_funcall (JsString "Init") (JsString "Error hint")
       always_dynamic busy_cell [CallValidate])
    [CallValidate]
  = after fixture_funcall (JsString "Init") (JsString "Error hint")
      always_dynamic busy_cell [CallValidate].
Proof.
  apply (validate_idempotent fixture_funcall (JsString "Init")
           (JsString "Error hint") always_dynamic busy_cell);
    reflexivity.
Defined.

Lemma validate_ignores_pending_calls_witness :
  cell_error
    (after fixture_funcall (JsString "Init") (JsString "Error hint")
       always_false init_cell
       ([CallSetValue (Plain (JsString "Changed")); CallReset]
        ++ [CallValidate]))
  = cell_error
      (after fixture_funcall (JsString "Init") (JsString "Error hint")
         always_false init_cell [CallValidate]).
Proof.
  apply (validate_ignores_pending_calls fixture_funcall (JsString "Init")
           (JsString "Error hint") always_false init_cell
           [CallSetValue (Plain (JsString "Changed")); CallReset]);
    reflexivity.
Defined.

Lemma reset_last_restores_render_savePoint_witness :
  cell_value
    (after fixture_funcall (JsString "Init") (JsString "Error hint")
       always_false busy_cell
       ([CallCommit (Some (JsString "Explicit"))] ++ [CallReset]))
  = JsString "Init"
  /\ cell_value
       (after fixture_funcall (JsString "Init") (JsString "Error hint")
          always_false function_savePoint_cell
          ([CallSetValue (Plain (JsString "Other"))] ++ [CallReset]))
     = JsString "OtherX".
Proof.
  split.
  - apply (reset_last_restores_render_savePoint fixture_funcall
             (JsString "Init") (JsString "Error hint") always_false busy_cell
             [CallCommit (Some (JsString "Explicit"))]).
    reflexivity.
  - destruct (reset_last_restores_render_savePoint fixture_funcall
                (JsString "Init") (JsString "Error hint") always_false
                function_savePoint_cell
                [CallSetValue (Plain (JsString "Other"))])
      as (_ & Hfun & _).
    apply (Hfun appender). reflexivity.
Defined.

Lemma commit_last_stores_render_value_witness :
  cell_savePoint
    (after fixture_funcall (JsString "Init") (JsString "Error hint")
       always_false init_cell
       ([CallSetValue (Plain (JsString "Changed"))]
        ++ [CallCommit (Some (JsString "Explicit"))]))
  = JsString "Explicit"
  /\ cell_savePoint
       (after fixture_funcall (JsString "Init") (JsString "Error hint")
          always_false busy_cell
          ([CallSetValue (Plain (JsString "Other"))] ++ [CallCommit None]))
     = JsString "Changed"
  /\ cell_savePoint
       (after fixture_funcall (JsString "Init") (JsString "Error hint")
          always_false busy_cell
          ([CallCommit (Some (JsString "Explicit"))]
           ++ [CallCommit (Some (JsFunction appender))]))
     = JsString "ExplicitX".
Proof.
  split; [|split].
  - destruct (commit_last_stores_render_value fixture_funcall
                (JsString "Init") (JsString "Error hint") always_false
                init_cell [CallSetValue (Plain (JsString "Changed"))]
                (Some (JsString "Explicit"))) as (Hstate & _).
    apply (Hstate (JsString "Explicit"));
      [reflexivity | intros Heq; discriminate Heq
      | intros Heq; discriminate Heq | reflexivity].
  - destruct (commit_last_stores_render_value fixture_funcall
                (JsString "Init") (JsString "Error hint") always_false
                busy_cell [CallSetValue (Plain (JsString "Other"))] None)
      as (_ & Hmissing & _).
    apply Hmissing; [left; reflexivity | reflexivity].
  - destruct (commit_last_stores_render_value fixture_funcall
                (JsString "Init") (JsString "Error hint") always_false
                busy_cell [CallCommit (Some (JsString "Explicit"))]
                (Some (JsFunction appender))) as (_ & _ & Hfun & _).
    apply (Hfun appender). reflexivity.
Defined.

Lemma reset_returns_to_baseline_witness :
  commit_free [[CallSetValue (Plain (JsString "Changed")); CallValidate]]
  = true
  /\ cell_value
       (run fixture_funcall (JsString "Init") (JsString "Error hint")
          always_false init_cell
          ([[CallSetValue (Plain (JsString "Changed")); CallValidate]]
           ++ [[CallReset]]))
     = cell_savePoint init_cell
  /\ cell_value
       (run fixture_funcall (JsString "Init") (JsString "Error hint")
          always_false
          (fst (result (mount fixture_funcall (JsString "Init")
                          (JsString "Error hint") always_false)))
          ([[CallSetValue (Plain (JsString "Changed")); CallValidate]]
           ++ [[CallReset]]))
     = JsString "Init".
Proof.
  split; [reflexivity|].
  destruct (reset_returns_to_baseline fixture_funcall (JsString "Init")
              (JsString "Error hint") always_false init_cell
              [[CallSetValue (Plain (JsString "Changed")); CallValidate]])
    as (_ & Hreset & Hmount); [reflexivity|].
  split; [apply Hreset | apply Hmount]; reflexivity.
Defined.

Lemma error_is_null_or_a_hint_witness :
  let e := cell_error
             (run fixture_funcall (JsString "Init") (JsString "Error hint")
                always_dynamic
                (fst (result (mount fixture_funcall (JsString "Init")
                                (JsString "Error hint") always_dynamic)))
                [[CallValidate]]) in
  e = JsNull \/ e = JsString "Error hint"
  \/ exists x, e = always_dynamic x /\ forall b, e <> JsBoolean b.
Proof.
  apply (error_is_null_or_a_hint fixture_funcall (JsString "Init")
           (JsString "Error hint") always_dynamic [[CallValidate]]).
  - reflexivity.
  - intros x. reflexivity.
Defined.

Lemma upgrade_preserves_early_behaviour_witness :
  forget
    (run fixture_funcall (JsString "Init") (JsString "Error hint")
       always_dynamic
       (fst (result (mount fixture_funcall (JsString "Init")
                       (JsString "Error hint") always_dynamic)))
       (map (map upgrade)
          [[Early.CallSetValue (Plain (JsString "Changed"));
            Early.CallValidate]; [Early.CallReset]]))
  = Early.run
      (Interim.useInputValidation fixture_funcall (JsString "Init")
         (JsString "Error hint") always_dynamic)
      (fst (result (Interim.useInputValidation fixture_funcall
                      (JsString "Init") (JsString "Error hint")
                      always_dynamic None)))
      [[Early.CallSetValue (Plain (JsString "Changed")); Early.CallValidate];
       [Early.CallReset]].
Proof.
  apply (upgrade_preserves_early_behaviour fixture_funcall (JsString "Init")
           (JsString "Error hint") always_dynamic
           [[Early.CallSetValue (Plain (JsString "Changed"));
             Early.CallValidate]; [Early.CallReset]] []).
  reflexivity.
Defined.

Lemma dynamic_hints_keep_predicates_witness :
  Early.act
    (Interim.useInputValidation fixture_funcall (JsString "Init")
       (JsString "Error hint") always_false)
    (forget init_cell) [Early.CallValidate; Early.CallReset]
  = Early.act
      (Legacy.useInputValidation fixture_funcall (JsString "Init")
         (JsString "Error hint") always_false)
      (forget init_cell) [Early.CallValidate; Early.CallReset].
Proof.
  apply (dynamic_hints_keep_predicates fixture_funcall (JsString "Init")
           (JsString "Error hint") always_false (forget init_cell)
           [Early.CallValidate; Early.CallReset] []).
  intros x. exists false. reflexivity.
Defined.

Lemma truthy_hint_passed_the_first_release_witness :
  Early.act
    (Legacy.useInputValidation fixture_funcall (JsString "Init")
       (JsString "Error hint") always_dynamic)
    (forget init_cell) [Early.CallValidate]
  = (Early.mkCell (JsString "Init") JsNull, [JsBoolean true])
  /\ Early.act
       (Legacy.useInputValidation fixture_funcall (JsString "Init")
          (JsString "Error hint") always_null)
       (forget init_cell) [Early.CallValidate]
     = (Early.mkCell (JsString "Init") (JsString "Error hint"),
        [JsBoolean false]).
Proof.
  split.
  - apply (truthy_hint_passed_the_first_release fixture_funcall
             (JsString "Init") (JsString "Error hint") always_dynamic
             init_cell).
    + intros b Hb. discriminate Hb.
    + reflexivity.
    + reflexivity.
  - apply (truthy_hint_passed_the_first_release fixture_funcall
             (JsString "Init") (JsString "Error hint") always_null
             init_cell).
    + intros b Hb. discriminate Hb.
    + reflexivity.
    + reflexivity.
    + reflexivity.
Defined.

Lemma early_reset_follows_argument_witness :
  Early.after
    (Legacy.useInputValidation fixture_funcall (JsString "Other")
       (JsString "Error hint") always_false)
    (forget busy_cell) [Early.CallReset]
  = Early.mkCell (JsString "Other") JsNull
  /\ cell_value
       (after fixture_funcall (JsString "Other") (JsString "Error hint")
          always_false
          (run fixture_funcall (JsString "Init") (JsString "Error hint")
             always_false
             (fst (result (mount fixture_funcall (JsString "Init")
                             (JsString "Error hint") always_false)))
             (map (map upgrade)
                [[Early.CallSetValue (Plain (JsString "Changed"))]]))
          [CallReset])
     = JsString "Init".
Proof.
  destruct (early_reset_follows_argument fixture_funcall (JsString "Init")
              (JsString "Other") (JsString "Error hint") always_false
              (forget busy_cell)
              [[Early.CallSetValue (Plain (JsString "Changed"))]])
    as (Hearly & Hcurrent).
  split.
  - apply Hearly. reflexivity.
  - apply Hcurrent. reflexivity.
Defined.
